(** * jasmine-as-promised: a shallow embedding of src/jasmine-as-promised.js

    The file has four parts:
    - [Js]: the fragment of JavaScript values the module touches
      ([typeof], property reads with data and accessor properties);
    - [Detector]: [isPromise] and [isDefined];
    - [Install]: [jasmineAsPromised] over a heap, the process-wide
      [duckPunchedAlready] flag and the Node entry point [module.exports];
    - [Intercept]: the [runs()] interceptor and the host queue that executes
      the blocks it enqueues.
    The modules [DetectorFacts], [InstallFacts], [InterceptFacts],
    [InstallExtras] and [InterceptExtras] then state and prove their
    properties. *)

From Stdlib Require Import Bool ZArith String List Lia.
Import ListNotations.
Open Scope string_scope.
Set Warnings "-register-all".

Module Js.

(** JavaScript values.  Objects and functions carry their (own and inherited)
    properties as an association list; a property is either a data property
    or an accessor whose getter performs some observable effects and then
    returns or throws.  A getter here behaves the same at every read: each
    read performs its effects again and completes the same way. *)
Inductive val : Type :=
| VUndef
| VNull
| VBool (b : bool)
| VNum (z : Z)
| VStr (s : string)
| VObj (ps : list (string * prop))
| VFun (ps : list (string * prop))
with prop : Type :=
| PData (v : val)
| PGet (eff : list string) (r : completion)
with completion : Type :=
| CRet (v : val)
| CThrow (e : val).

(** The [typeof] operator. *)
Definition typeof (x : val) : string :=
  match x with
  | VUndef => "undefined"
  | VNull => "object"
  | VBool _ => "boolean"
  | VNum _ => "number"
  | VStr _ => "string"
  | VObj _ => "object"
  | VFun _ => "function"
  end.

Fixpoint find_prop (ps : list (string * prop)) (k : string) : option prop :=
  match ps with
  | [] => None
  | (k', p) :: ps' => if String.eqb k k' then Some p else find_prop ps' k
  end.

(** A thrown [TypeError] / [ReferenceError], tagged by its message. *)
Definition type_error (msg : string) : val :=
  VObj [("name", PData (VStr "TypeError")); ("message", PData (VStr msg))].
Definition reference_error (msg : string) : val :=
  VObj [("name", PData (VStr "ReferenceError")); ("message", PData (VStr msg))].

(** [x.k]: the effects performed and the completion.  Reading a property of
    [null] or [undefined] throws a TypeError; primitives are read through
    their wrapper prototypes, which carry none of the names used here. *)
Definition get (x : val) (k : string) : list string * completion :=
  match x with
  | VUndef => ([], CThrow (type_error ("Cannot read properties of undefined (reading '" ++ k ++ "')")))
  | VNull => ([], CThrow (type_error ("Cannot read properties of null (reading '" ++ k ++ "')")))
  | VObj ps | VFun ps =>
      match find_prop ps k with
      | None => ([], CRet VUndef)
      | Some (PData v) => ([], CRet v)
      | Some (PGet eff r) => (eff, r)
      end
  | _ => ([], CRet VUndef)
  end.

End Js.

Module Detector.
Import Js.

(** Outcome of a boolean-valued JS function call: effects and completion. *)
Inductive bresult := BOk (b : bool) | BThrow (e : val).

(** [isPromise = function (x) { return typeof x === "object" && x !== null
    && typeof x.then === "function"; }] with the short-circuits of [&&]. *)
Definition isPromise (x : val) : list string * bresult :=
  if negb (String.eqb (typeof x) "object") then ([], BOk false)
  else match x with
       | VNull => ([], BOk false)
       | _ =>
           let (eff, c) := get x "then" in
           match c with
           | CRet t => (eff, BOk (String.eqb (typeof t) "function"))
           | CThrow e => (eff, BThrow e)
           end
       end.

(** [isDefined = function (value) { return typeof value != 'undefined'; }] *)
Definition isDefined (x : val) : bool := negb (String.eqb (typeof x) "undefined").

Example isPromise_thenable :
  isPromise (VObj [("then", PData (VFun []))]) = ([], BOk true).
Proof. reflexivity. Qed.

End Detector.

Module Install.

(** Values seen by the installer.  [HRef l] is a heap object (a plain object
    or a constructor function such as [jasmine.Spec]); [HPrim n] is a host
    function such as the original [runs] or [waitsFor]; [HIntercept r w] is
    the interceptor closure built over the captured [runs] and [waitsFor];
    [HErr kind msg] is a thrown error object. *)
Inductive hval : Type :=
| HUndef
| HNull
| HBool (b : bool)
| HNum (z : Z)
| HStr (s : string)
| HRef (l : nat)
| HPrim (name : string)
| HIntercept (runs waits : hval)
| HErr (kind msg : string).

Definition obj := list (string * hval).
Definition heap := list (nat * obj).

Record state := mkState {
  duckPunchedAlready : bool;
  mem : heap
}.

(** Completions of the installer: normal return or a thrown value. *)
Inductive res (A : Type) := Ok (a : A) | Exc (e : hval).
Arguments Ok {A} a.
Arguments Exc {A} e.

Notation "'let*' x := m 'in' k" :=
  (match m with Ok x => k | Exc e => Exc e end)
  (at level 200, x name, m at level 100, k at level 200).

Fixpoint heap_find (h : heap) (l : nat) : option obj :=
  match h with
  | [] => None
  | (l', o) :: h' => if Nat.eqb l l' then Some o else heap_find h' l
  end.

Fixpoint obj_find (o : obj) (k : string) : option hval :=
  match o with
  | [] => None
  | (k', v) :: o' => if String.eqb k k' then Some v else obj_find o' k
  end.

Fixpoint obj_set (o : obj) (k : string) (v : hval) : obj :=
  match o with
  | [] => [(k, v)]
  | (k', v') :: o' => if String.eqb k k' then (k', v) :: o' else (k', v') :: obj_set o' k v
  end.

Fixpoint heap_set (h : heap) (l : nat) (o : obj) : heap :=
  match h with
  | [] => []
  | (l', o') :: h' => if Nat.eqb l l' then (l', o) :: h' else (l', o') :: heap_set h' l o
  end.

Definition read_error (what k : string) : hval :=
  HErr "TypeError" ("Cannot read properties of " ++ what ++ " (reading '" ++ k ++ "')").

(** [x.k] (no accessor properties on the host objects). Properties of host
    functions and of primitives' wrappers are not used by the module and
    read as [undefined]. *)
Definition get (h : heap) (x : hval) (k : string) : res hval :=
  match x with
  | HUndef => Exc (read_error "undefined" k)
  | HNull => Exc (read_error "null" k)
  | HRef l =>
      match heap_find h l with
      | Some o => match obj_find o k with Some v => Ok v | None => Ok HUndef end
      | None => Ok HUndef
      end
  | _ => Ok HUndef
  end.

(** [x.k = v] in strict mode: on [null]/[undefined] and on primitives it
    throws a TypeError; on a host function it adds a property nobody reads. *)
Definition put (h : heap) (x : hval) (k : string) (v : hval) : res heap :=
  match x with
  | HUndef => Exc (HErr "TypeError" ("Cannot set properties of undefined (setting '" ++ k ++ "')"))
  | HNull => Exc (HErr "TypeError" ("Cannot set properties of null (setting '" ++ k ++ "')"))
  | HBool _ | HNum _ | HStr _ | HErr _ _ =>
      Exc (HErr "TypeError" ("Cannot create property '" ++ k ++ "'"))
  | HRef l =>
      match heap_find h l with
      | Some o => Ok (heap_set h l (obj_set o k v))
      | None => Ok h
      end
  | HPrim _ | HIntercept _ _ => Ok h
  end.

Definition isDefined (x : hval) : bool :=
  match x with HUndef => false | _ => true end.

(** [function jasmineAsPromised(jasmine)] (lines 139-213).  The state after
    a throw is returned as well: [duckPunchedAlready = true] happens before
    the reads that may throw.  [interceptor.toString = ...] writes a property
    of the fresh closure, which nothing reads. *)
Definition jasmineAsPromised (st : state) (jasmine : hval) : state * res unit :=
  if duckPunchedAlready st then (st, Ok tt)
  else if negb (isDefined jasmine) then (st, Ok tt)
  else
    let st1 := mkState true (mem st) in
    let h := mem st1 in
    let r :=
      (let* spec := get h jasmine "Spec" in
       let* proto := get h spec "prototype" in
       let* runs := get h proto "runs" in
       let* spec2 := get h jasmine "Spec" in
       let* proto2 := get h spec2 "prototype" in
       let* waitsFor := get h proto2 "waitsFor" in
       let interceptor := HIntercept runs waitsFor in
       let* spec3 := get h jasmine "Spec" in
       let* proto3 := get h spec3 "prototype" in
       put h proto3 "runs" interceptor) in
    match r with
    | Ok h' => (mkState true h', Ok tt)
    | Exc e => (st1, Exc e)
    end.

(** Node's module tree: a module with its [id], [exports] and [children]. *)
Inductive modnode : Type :=
| Mod (id : string) (exports : hval) (children : list modnode).

Definition truthy (x : hval) : bool :=
  match x with
  | HUndef | HNull => false
  | HBool b => b
  | HNum z => negb (Z.eqb z 0)
  | HStr s => negb (String.eqb s "")
  | _ => true
  end.

(** [id.indexOf(suffix, id.length - suffix.length) !== -1]: a negative start
    index is clamped to 0, so this holds exactly when [id] ends with [suffix]. *)
Definition ends_with (id suffix : string) : bool :=
  Nat.leb (String.length suffix) (String.length id)
  && String.eqb (substring (String.length id - String.length suffix) (String.length suffix) id) suffix.

(** [findNodeJSTarget] (lines 55-69): depth-first search; falling off the
    end of the function returns [undefined]. *)
Fixpoint findNodeJSTarget (m : modnode) (suffix : string) : hval :=
  match m with
  | Mod id exports children =>
      if ends_with id suffix && truthy exports then exports
      else
        (fix scan (cs : list modnode) : hval :=
           match cs with
           | [] => HUndef
           | c :: cs' =>
               let found := findNodeJSTarget c suffix in
               if truthy found then found else scan cs'
           end) children
  end.

(** The global environment of the Node branch of the module-systems dance.
    [real_node]: [typeof process === "object"] and its [toString] tag is
    ["[object process]"]; [require_main]: [require.main], [None] when it is
    [undefined]; [global_jasmine]: the global binding [jasmine], [None] when
    no such binding is declared. *)
Record env := mkEnv {
  real_node : bool;
  require_main : option modnode;
  global_jasmine : option hval
}.

(** [path.join("jasmine", "lib", "jasmine.js")] on a POSIX host. *)
Definition jasmine_suffix : string := "jasmine/lib/jasmine.js".

Definition msg_no_module : string :=
  "Attempted to automatically plug in to Jasmine, but could not detect a running Jasmine module.".
Definition msg_no_env : string :=
  "Attempted to automatically plug in to Jasmine, but could not detect the environment. Plug in manually by passing the running Jasmine module.".

(** [module.exports = function (target) {...}] (lines 80-105).  Evaluating
    the identifier [jasmine] when no binding exists throws a ReferenceError
    before [isDefined] is entered. *)
Definition module_exports (en : env) (st : state) (target : hval) : state * res unit :=
  if negb (truthy target) then
    if real_node en then
      match require_main en with
      | None => (st, Exc (read_error "undefined" "id"))
      | Some main =>
          let t := findNodeJSTarget main jasmine_suffix in
          if negb (isDefined t) then (st, Exc (HErr "Error" msg_no_module))
          else jasmineAsPromised st t
      end
    else
      match global_jasmine en with
      | None => (st, Exc (HErr "ReferenceError" "jasmine is not defined"))
      | Some g =>
          if isDefined g then jasmineAsPromised st g
          else (st, Exc (HErr "Error" msg_no_env))
      end
  else jasmineAsPromised st target.

(** [String.prototype.indexOf(search, position)]: the start index is
    [position] clamped to [0 .. s.length]; the first [k >= start] at which
    [search] occurs, or [-1]. *)
Fixpoint indexOf_from (s search : string) (k fuel : nat) : Z :=
  match fuel with
  | 0 => (-1)%Z
  | S f =>
      if Nat.leb (k + String.length search) (String.length s)
         && String.eqb (substring k (String.length search) s) search
      then Z.of_nat k else indexOf_from s search (S k) f
  end.

Definition js_indexOf (s search : string) (position : Z) : Z :=
  let len := String.length s in
  let start := Z.to_nat (Z.min (Z.max position 0) (Z.of_nat len)) in
  indexOf_from s search start (S (len - start)).

(** The test of line 57 as written:
    [moduleToTest.id.indexOf(suffix, moduleToTest.id.length - suffix.length) !== -1]. *)
Definition id_matches (id suffix : string) : bool :=
  negb (Z.eqb (js_indexOf id suffix (Z.of_nat (String.length id) - Z.of_nat (String.length suffix))) (-1)).

End Install.

Module Intercept.
Import Js Detector.

(** How a deferred computation settles. *)
Inductive settlement := Fulfil (v : val) | Reject (r : val).

(** The user's step body [runFn]: what [runFn.call()] completes with and,
    when the returned value is a conformant promise, what its [then]
    arranges: [Some (n, s)] calls the registered callback for [s] after [n]
    turns of the event loop, [None] never settles. *)
Record body := mkBody {
  b_call : completion;
  b_settle : option (nat * settlement)
}.

(** The closures the interceptor creates: [onReleaseWait] is the only
    settlement callback. *)
Inductive callback := OnReleaseWait.

(** The blocks handed to the host's [runs]: the adapter closure of lines
    167-180 (closing over [runFn]) or a user function such as [expectFn]. *)
Inductive block := Adapter (runFn : body) | UserFn (f : val).

(** The condition closure of lines 185-189: [return result;]. *)
Inductive condition := ReadLatch.

(** Calls the interceptor makes on the captured host primitives. *)
Inductive hcall :=
| CallRuns (b : block)
| CallWaitsFor (c : condition) (timeOut : val).

(** [interceptor = function (runFn, expectFn, timeOut)] (lines 155-198):
    the sequence of host calls it makes. *)
Definition interceptor (runFn : body) (expectFn timeOut : val) : list hcall :=
  [CallRuns (Adapter runFn); CallWaitsFor ReadLatch timeOut]
  ++ (if isDefined expectFn then [CallRuns (UserFn expectFn)] else []).

(** Observable events of one step execution. *)
Inductive event :=
| EvEffects (eff : list string)          (* effects of a [then] getter *)
| EvThen (onOk onErr : callback)        (* [retVal.then(onOk, onErr)] *)
| EvCall (f : val) (args : list val)    (* the host calls a user function *)
| EvCheck (b : bool)                    (* one evaluation of the poll condition *)
| EvTimeout                             (* the host's poll gives up *)
| EvFail (e : val).                     (* a block threw *)

(** Per-invocation state: the Completion Latch [result] of line 157, the
    callbacks registered on the promise together with its pending
    settlement, and the event log (newest first). *)
Record xstate := mkX {
  result : bool;
  pending : option (nat * settlement * (callback * callback));
  log : list event
}.

Definition init_xstate : xstate := mkX false None [].

Definition add_event (ev : event) (st : xstate) : xstate :=
  mkX (result st) (pending st) (ev :: log st).

(** [onReleaseWait = function () { return result = true; }]: whatever its
    arguments, it sets the latch and returns [true]. *)
Definition apply_cb (cb : callback) (args : list val) (st : xstate) : xstate * val :=
  match cb with
  | OnReleaseWait => (mkX true (pending st) (log st), VBool true)
  end.

(** The adapter closure of lines 167-180:
    [var retVal = runFn.call(); if (isPromise(retVal)) retVal.then(onReleaseWait,
    onReleaseWait); else onReleaseWait();].  An exception escapes to the host
    ([Some e]).  The call [retVal.then(...)] reads [retVal.then] a second
    time (its getter, if any, runs again); calling a non-function throws a
    TypeError; calling the promise's [then] records the two callbacks with
    the pending settlement. *)
Definition run_adapter (runFn : body) (st : xstate) : xstate * option val :=
  match b_call runFn with
  | CThrow e => (st, Some e)
  | CRet retVal =>
      let (eff, r) := isPromise retVal in
      let st := match eff with [] => st | _ => add_event (EvEffects eff) st end in
      match r with
      | BThrow e => (st, Some e)
      | BOk true =>
          let (eff2, c) := get retVal "then" in
          let st := match eff2 with [] => st | _ => add_event (EvEffects eff2) st end in
          match c with
          | CThrow e => (st, Some e)
          | CRet t =>
              if String.eqb (typeof t) "function" then
                let st := add_event (EvThen OnReleaseWait OnReleaseWait) st in
                (mkX (result st)
                     (option_map (fun '(n, s) => (n, s, (OnReleaseWait, OnReleaseWait)))
                                 (b_settle runFn))
                     (log st), None)
              else (st, Some (type_error "retVal.then is not a function"))
          end
      | BOk false => (fst (apply_cb OnReleaseWait [] st), None)
      end
  end.

(** One turn of the event loop: a settlement due now calls the callback
    registered for it with the settled value. *)
Definition tick (st : xstate) : xstate :=
  match pending st with
  | None => st
  | Some (S n, s, cbs) => mkX (result st) (Some (n, s, cbs)) (log st)
  | Some (0, Fulfil v, (onOk, _)) =>
      fst (apply_cb onOk [v] (mkX (result st) None (log st)))
  | Some (0, Reject r, (_, onErr)) =>
      fst (apply_cb onErr [r] (mkX (result st) None (log st)))
  end.

(** The host's [waitsFor] block: evaluate the condition; when false, let the
    event loop turn and check again, at most [fuel] more times. *)
Fixpoint wait_loop (fuel : nat) (st : xstate) : xstate * bool :=
  let c := result st in
  let st := add_event (EvCheck c) st in
  if c then (st, true)
  else match fuel with
       | 0 => (add_event EvTimeout st, false)
       | S f => wait_loop f (tick st)
       end.

Section Host.
(** The host's timeout policy: how many re-checks a [waitsFor] timeout
    argument allows ([undefined] selects the host's default). *)
Variable polls_for : val -> nat.

(** The host (Jasmine 1.x) runs the queued blocks in order.  A block is
    called with no arguments (the spec's [runStep(body: () -> T)], Jasmine's
    [Block.execute]: [this.func.apply(this.spec)]), which throws a TypeError
    when the block is not a function; a block that throws is
    reported and the queue goes on; a timed-out [waitsFor] aborts the rest. *)
Fixpoint exec (calls : list hcall) (st : xstate) : xstate :=
  match calls with
  | [] => st
  | CallRuns (Adapter b) :: rest =>
      let (st', ex) := run_adapter b st in
      match ex with
      | Some e => exec rest (add_event (EvFail e) st')
      | None => exec rest st'
      end
  | CallRuns (UserFn f) :: rest =>
      if String.eqb (typeof f) "function" then exec rest (add_event (EvCall f []) st)
      else exec rest (add_event (EvFail (type_error "this.func.apply is not a function")) st)
  | CallWaitsFor ReadLatch t :: rest =>
      let (st', ok) := wait_loop (polls_for t) st in
      if ok then exec rest st' else st'
  end.

End Host.

(** The poll results of a log, newest first. *)
Fixpoint checks (l : list event) : list bool :=
  match l with
  | [] => []
  | EvCheck b :: l' => b :: checks l'
  | _ :: l' => checks l'
  end.

End Intercept.

(** * Properties *)

Module DetectorFacts.
Import Js Detector.

(** The detector as the spec words it: a non-null object-like value (plain
    objects and functions are JavaScript objects) whose [then] property
    holds a callable value. *)
Definition isDeferred_spec (x : val) : bool :=
  match x with
  | VObj _ | VFun _ =>
      match snd (get x "then") with
      | CRet t => String.eqb (typeof t) "function"
      | CThrow _ => false
      end
  | _ => false
  end.

(** Claim C3 fails on a function carrying a callable [then] (a thenable in
    the Promises/A+ sense): it is object-like and non-null, yet
    [typeof x === "object"] is false for it, so [isPromise] says false. *)
Lemma isPromise_function_thenable :
  let x := VFun [("then", PData (VFun []))] in
  isDeferred_spec x = true /\ snd (isPromise x) = BOk false.
Proof. split; reflexivity. Qed.

Lemma isPromise_VObj (ps : list (string * prop)) :
  isPromise (VObj ps) =
  let (eff, c) := get (VObj ps) "then" in
  match c with
  | CRet t => (eff, BOk (String.eqb (typeof t) "function"))
  | CThrow e => (eff, BThrow e)
  end.
Proof. reflexivity. Qed.

(** Claim C3 (amended): [isPromise x] returns [true] exactly when [typeof x]
    is "object", [x] is not [null] (so [x] is a plain object, not a function)
    and reading [x.then] yields a function; the spec's examples come out as
    listed, and a function with a callable [then] gives false. *)
Theorem isPromise_iff :
  (forall x, snd (isPromise x) = BOk true <->
     exists ps eff t, x = VObj ps /\ get x "then" = (eff, CRet t)
                      /\ typeof t = "function")
  /\ snd (isPromise (VObj [("then", PData (VFun []))])) = BOk true
  /\ snd (isPromise VNull) = BOk false
  /\ snd (isPromise VUndef) = BOk false
  /\ snd (isPromise (VNum 42)) = BOk false
  /\ snd (isPromise (VStr "string")) = BOk false
  /\ snd (isPromise (VObj [])) = BOk false
  /\ snd (isPromise (VObj [("then", PData (VStr "not a function"))])) = BOk false
  /\ snd (isPromise (VFun [("then", PData (VFun []))])) = BOk false.
Proof.
  repeat split; try reflexivity.
  - destruct x as [| | b | z | s | ps | ps]; try (simpl; discriminate).
    rewrite isPromise_VObj.
    destruct (get (VObj ps) "then") as [eff [t | e]] eqn:G; simpl; try discriminate.
    intro H. injection H as H. apply String.eqb_eq in H. exists ps, eff, t. auto.
  - intros (ps & eff & t & -> & G & T). rewrite isPromise_VObj, G. simpl.
    rewrite T. reflexivity.
Qed.

(** Claim C8 fails on an object whose [then] is an accessor: [x.then] runs
    the getter, whose effect happens and whose exception escapes [isPromise]. *)
Lemma isPromise_getter_throws :
  isPromise (VObj [("then", PGet ["getter ran"] (CThrow (VStr "boom")))])
  = (["getter ran"], BThrow (VStr "boom")).
Proof. reflexivity. Qed.

(** [x] is not a plain object whose [then] is an accessor property. *)
Definition no_then_getter (x : val) : bool :=
  match x with
  | VObj ps => match find_prop ps "then" with Some (PGet _ _) => false | _ => true end
  | _ => true
  end.

(** Claim C8 (amended): [isPromise] returns a boolean with no effect on every
    input except a plain object whose [then] is an accessor property; on
    such an object the getter runs, its effects are performed, and its
    exception, if any, propagates out of [isPromise]. *)
Theorem isPromise_total_unless_getter :
  (forall x, no_then_getter x = true -> exists b, isPromise x = ([], BOk b))
  /\ (forall ps eff r, find_prop ps "then" = Some (PGet eff r) ->
        isPromise (VObj ps)
        = (eff, match r with
                | CRet t => BOk (String.eqb (typeof t) "function")
                | CThrow e => BThrow e
                end)).
Proof.
  split.
  - intros [| | b | z | s | ps | ps] N; try (eexists; reflexivity).
    rewrite isPromise_VObj; simpl. simpl in N.
    destruct (find_prop ps "then") as [[v | eff r] |]; try discriminate N;
      eexists; reflexivity.
  - intros ps eff r F. rewrite isPromise_VObj; simpl. rewrite F.
    destruct r; reflexivity.
Qed.

Lemma isPromise_total_unless_getter_witness :
  (exists b, isPromise VNull = ([], BOk b))
  /\ isPromise (VObj [("then", PGet ["getter ran"] (CThrow (VStr "boom")))])
     = (["getter ran"], BThrow (VStr "boom")).
Proof.
  split.
  - exact (proj1 isPromise_total_unless_getter VNull eq_refl).
  - exact (proj2 isPromise_total_unless_getter
             [("then", PGet ["getter ran"] (CThrow (VStr "boom")))] ["getter ran"]
             (CThrow (VStr "boom")) eq_refl).
Defined.

End DetectorFacts.

Module InstallFacts.
Import Install.

(** Repeated activation attempts; a thrown exception is caught by the caller
    and the next attempt runs in the state it left. *)
Fixpoint install_all (st : state) (hs : list hval) : state :=
  match hs with
  | [] => st
  | j :: hs' => install_all (fst (jasmineAsPromised st j)) hs'
  end.

(** A running Jasmine: [jasmine] at location 0, [jasmine.Spec] at 1 and
    [jasmine.Spec.prototype] at 2 holding [runs] and [waitsFor]. *)
Definition host_heap (runs0 waits0 : hval) : heap :=
  [(0, [("Spec", HRef 1)]);
   (1, [("prototype", HRef 2)]);
   (2, [("runs", runs0); ("waitsFor", waits0)])].

Definition runs_slot (st : state) : option hval :=
  match heap_find (mem st) 2 with
  | Some o => obj_find o "runs"
  | None => None
  end.

Lemma install_all_punched (h : heap) (hs : list hval) :
  install_all (mkState true h) hs = mkState true h.
Proof. induction hs as [| j hs IH]; simpl; auto. Qed.

(** Claim C4: once the flag is set every activation returns at once with no
    effect, whatever the handle; an [undefined] handle is a no-op; the flag
    is set by any attempt with a defined handle; and on a running Jasmine any
    sequence of activations leaves [Spec.prototype.runs] wrapped exactly
    once around the original. *)
Theorem jasmineAsPromised_idempotent :
  (forall h j, jasmineAsPromised (mkState true h) j = (mkState true h, Ok tt))
  /\ (forall st, jasmineAsPromised st HUndef = (st, Ok tt))
  /\ (forall st j, duckPunchedAlready (fst (jasmineAsPromised st j))
                   = duckPunchedAlready st || isDefined j)
  /\ (forall runs0 waits0 hs,
        runs_slot (install_all (mkState false (host_heap runs0 waits0)) (HRef 0 :: hs))
        = Some (HIntercept runs0 waits0)).
Proof.
  split; [| split; [| split]].
  - reflexivity.
  - intros [[|] h]; reflexivity.
  - intros [[|] h] j; [reflexivity |].
    unfold jasmineAsPromised; simpl.
    destruct (isDefined j); simpl; [| reflexivity].
    repeat match goal with
           | |- context [match ?m with Ok _ => _ | Exc _ => _ end] => destruct m
           end; reflexivity.
  - intros runs0 waits0 hs. simpl. rewrite install_all_punched. reflexivity.
Qed.

(** Claim C10: an activation that throws (e.g. on [null], or on an object
    without [Spec]) has already set the flag and changed nothing else; every
    later activation, even with a running Jasmine, returns at once. *)
Theorem jasmineAsPromised_not_atomic :
  forall h j e st1,
    jasmineAsPromised (mkState false h) j = (st1, Exc e) ->
    st1 = mkState true h
    /\ forall j', jasmineAsPromised st1 j' = (st1, Ok tt).
Proof.
  intros h j e st1 E.
  unfold jasmineAsPromised in E; simpl in E.
  destruct (isDefined j); simpl in E; [| discriminate E].
  repeat match type of E with
         | context [match ?m with Ok _ => _ | Exc _ => _ end] => destruct m
         end; try discriminate E; injection E as <- _; split; reflexivity.
Qed.

Lemma jasmineAsPromised_not_atomic_witness :
  jasmineAsPromised (mkState false (host_heap (HPrim "runs") (HPrim "waitsFor"))) HNull
  = (mkState true (host_heap (HPrim "runs") (HPrim "waitsFor")), Exc (read_error "null" "Spec"))
  /\ jasmineAsPromised (mkState false (host_heap (HPrim "runs") (HPrim "waitsFor"))) (HRef 2)
     = (mkState true (host_heap (HPrim "runs") (HPrim "waitsFor")), Exc (read_error "undefined" "prototype"))
  /\ (forall j',
        jasmineAsPromised (mkState true (host_heap (HPrim "runs") (HPrim "waitsFor"))) j'
        = (mkState true (host_heap (HPrim "runs") (HPrim "waitsFor")), Ok tt)).
Proof.
  split; [reflexivity | split; [reflexivity |]].
  exact (proj2 (jasmineAsPromised_not_atomic
                  (host_heap (HPrim "runs") (HPrim "waitsFor")) HNull
                  (read_error "null" "Spec")
                  (mkState true (host_heap (HPrim "runs") (HPrim "waitsFor")))
                  eq_refl)).
Defined.

(** Claim C9 (code bug): outside real Node with no [jasmine] binding, the
    auto-discovery branch throws the ReferenceError raised by evaluating the
    identifier [jasmine] for [isDefined(jasmine)], not the descriptive Error
    of lines 99-100, which is reached only when a [jasmine] binding exists and
    holds [undefined].  In real Node, a module tree without Jasmine does give
    the descriptive Error of lines 91-92. *)
Theorem module_exports_undeclared_jasmine :
  (forall st, module_exports (mkEnv false None None) st HUndef
              = (st, Exc (HErr "ReferenceError" "jasmine is not defined")))
  /\ (forall st, module_exports (mkEnv false None (Some HUndef)) st HUndef
                 = (st, Exc (HErr "Error" msg_no_env)))
  /\ (forall st, module_exports
                   (mkEnv true (Some (Mod "/app/spec/run.js" (HRef 7) [])) None) st HUndef
                 = (st, Exc (HErr "Error" msg_no_module))).
Proof. repeat split. Qed.

End InstallFacts.

Module InterceptFacts.
Import Js Detector Intercept.

Definition both_release (settle : option (nat * settlement))
  : option (nat * settlement * (callback * callback)) :=
  option_map (fun '(n, s) => (n, s, (OnReleaseWait, OnReleaseWait))) settle.

Definition with_effects (eff : list string) (l : list event) : list event :=
  match eff with [] => l | _ => EvEffects eff :: l end.

(** [isPromise] answered [true]: [retVal.then] read as a function. *)
Lemma isPromise_true_then (retVal : val) (eff : list string) :
  isPromise retVal = (eff, BOk true) ->
  exists t, get retVal "then" = (eff, CRet t) /\ typeof t = "function".
Proof.
  intros P. destruct retVal as [| | b | z | s | ps | ps]; try discriminate P.
  unfold isPromise in P. cbn -[get] in P.
  destruct (get (VObj ps) "then") as [eff' [t | e]] eqn:G; [| discriminate P].
  injection P as -> T. exists t. split; [reflexivity |]. apply String.eqb_eq; exact T.
Qed.

(** On a promise, the adapter reads [then] twice (so a getter's effects
    are logged twice) and registers [onReleaseWait] for both outcomes. *)
Lemma run_adapter_deferred (runFn : body) (retVal : val) (eff : list string) (st : xstate) :
  b_call runFn = CRet retVal ->
  isPromise retVal = (eff, BOk true) ->
  run_adapter runFn st
  = (mkX (result st) (both_release (b_settle runFn))
         (EvThen OnReleaseWait OnReleaseWait :: with_effects eff (with_effects eff (log st))), None).
Proof.
  intros C P. destruct (isPromise_true_then retVal eff P) as (t & G & T).
  unfold run_adapter. rewrite C, P, G, T. simpl.
  destruct eff; reflexivity.
Qed.




(** A body whose promise fulfils with 5 on the next turn, and a follow-up. *)
Definition promise5 : val := VObj [("then", PData (VFun []))].
Definition body5 : body := mkBody (CRet promise5) (Some (0, Fulfil (VNum 5))).
Definition checkExpectations : val :=
  VFun [("name", PData (VStr "checkExpectations"))].

(** Claim C1 (code bug): with [runs(function () { return p; },
    function checkExpectations(result) {...})] and [p] fulfilling with 5, the
    interceptor hands only [expectFn] to the host's [runs], whose block calls
    it with no arguments; [onReleaseWait] drops the value 5, so the
    follow-up is called with [] and never with [5]. *)
Theorem followup_not_given_value :
  log (exec (fun _ => 50) (interceptor body5 checkExpectations VUndef) init_xstate)
  = [EvCall checkExpectations [];
     EvCheck true; EvCheck false;
     EvThen OnReleaseWait OnReleaseWait]
  /\ ~ In (EvCall checkExpectations [VNum 5])
         (log (exec (fun _ => 50) (interceptor body5 checkExpectations VUndef) init_xstate)).
Proof.
  split; [reflexivity |].
  vm_compute. intros [H | [H | [H | [H | H]]]]; try discriminate H; exact H.
Qed.



Definition is_waitsFor (c : hcall) : bool :=
  match c with CallWaitsFor _ _ => true | CallRuns _ => false end.

(** Claim C6: the interceptor calls the host's [waitsFor] exactly once, with
    the latch condition and its own [timeOut] argument as is; an absent
    [timeOut] is passed on as [undefined]. *)
Theorem timeout_forwarded :
  (forall runFn expectFn timeOut,
     filter is_waitsFor (interceptor runFn expectFn timeOut)
     = [CallWaitsFor ReadLatch timeOut])
  /\ (forall runFn expectFn,
        filter is_waitsFor (interceptor runFn expectFn VUndef)
        = [CallWaitsFor ReadLatch VUndef]).
Proof.
  split; intros; unfold interceptor; simpl;
    destruct (isDefined _); reflexivity.
Qed.

(** Poll results newest first: once a [false] is met going back in time, all
    older ones are [false] too (chronologically: falses, then trues). *)
Fixpoint checks_mono (l : list bool) : bool :=
  match l with
  | [] => true
  | true :: l' => checks_mono l'
  | false :: l' => forallb negb l'
  end.

Definition inv (st : xstate) : bool :=
  checks_mono (checks (log st)) && (result st || forallb negb (checks (log st))).

Lemma inv_add_other (ev : event) (st : xstate) :
  (forall b, ev <> EvCheck b) -> inv (add_event ev st) = inv st.
Proof. intros N; destruct ev; try reflexivity. exfalso; exact (N b eq_refl). Qed.

Lemma inv_add_check (st : xstate) :
  inv st = true -> inv (add_event (EvCheck (result st)) st) = true.
Proof.
  unfold inv, add_event; simpl. destruct (result st); simpl.
  - intros H; apply andb_true_iff in H as [H _]. rewrite H; reflexivity.
  - intros H; apply andb_true_iff in H as [_ H]. rewrite H; reflexivity.
Qed.

Lemma inv_release (st : xstate) (p : option (nat * settlement * (callback * callback))) :
  inv st = true -> inv (mkX true p (log st)) = true.
Proof.
  unfold inv; simpl. intros H; apply andb_true_iff in H as [H _]. rewrite H; reflexivity.
Qed.

Lemma tick_inv (st : xstate) :
  implb (result st) (result (tick st)) = true /\ (inv st = true -> inv (tick st) = true).
Proof.
  destruct st as [r [[[[| n] [v | v]] [c1 c2]] |] l]; simpl;
    try (destruct c1); try (destruct c2); simpl;
    (split; [destruct r; reflexivity | intro H]);
    try exact H; exact (inv_release (mkX r None l) None H).
Qed.

Lemma wait_loop_inv (fuel : nat) (st : xstate) :
  implb (result st) (result (fst (wait_loop fuel st))) = true
  /\ (inv st = true -> inv (fst (wait_loop fuel st)) = true).
Proof.
  revert st; induction fuel as [| f IH]; intros st; simpl;
    destruct (result st) eqn:R; simpl.
  - split; [simpl; rewrite ?R; reflexivity |]. intro H.
    pose proof (inv_add_check st H) as K. rewrite R in K. exact K.
  - split; [simpl; rewrite ?R; reflexivity |]. intro H.
    rewrite inv_add_other by discriminate.
    pose proof (inv_add_check st H) as K. rewrite R in K. exact K.
  - split; [simpl; rewrite ?R; reflexivity |]. intro H.
    pose proof (inv_add_check st H) as K. rewrite R in K. exact K.
  - destruct (IH (tick (add_event (EvCheck false) st))) as [M I].
    split; [simpl; rewrite ?R; reflexivity |]. intro H. apply I. apply tick_inv.
    pose proof (inv_add_check st H) as K. rewrite R in K. exact K.
Qed.

Lemma run_adapter_inv (runFn : body) (st : xstate) :
  implb (result st) (result (fst (run_adapter runFn st))) = true
  /\ (inv st = true -> inv (fst (run_adapter runFn st)) = true).
Proof.
  unfold run_adapter. destruct (b_call runFn) as [retVal | e].
  2: { simpl; split; [destruct (result st); reflexivity | auto]. }
  destruct (isPromise retVal) as [eff [[|] | e]];
    [destruct (get retVal "then") as [eff2 [t | e]];
       [destruct (String.eqb (typeof t) "function") |] | |].
  all: destruct eff; try destruct eff2; simpl;
    (split; [destruct (result st); reflexivity | intro H]).
  all: unfold inv in *; simpl in *; try exact H.
  all: apply andb_true_iff in H as [H _]; rewrite H; reflexivity.
Qed.

Lemma exec_inv (polls_for : val -> nat) (calls : list hcall) (st : xstate) :
  implb (result st) (result (exec polls_for calls st)) = true
  /\ (inv st = true -> inv (exec polls_for calls st) = true).
Proof.
  revert st; induction calls as [| c calls IH]; intros st; simpl.
  - split; [destruct (result st); reflexivity | auto].
  - destruct c as [[runFn | f] | [] t].
    + destruct (run_adapter_inv runFn st) as [M1 I1].
      destruct (run_adapter runFn st) as [st' [e |]] eqn:E; simpl in M1, I1.
      * destruct (IH (add_event (EvFail e) st')) as [M2 I2]. simpl in M2.
        split.
        -- destruct (result st), (result st'); simpl in *; congruence.
        -- intro H. apply I2. rewrite inv_add_other by discriminate. auto.
      * destruct (IH st') as [M2 I2]. split.
        -- destruct (result st), (result st'); simpl in *; congruence.
        -- auto.
    + set (ev := if String.eqb (typeof f) "function" then EvCall f []
                  else EvFail (type_error "this.func.apply is not a function")).
      assert (E : (if String.eqb (typeof f) "function"
                   then exec polls_for calls (add_event (EvCall f []) st)
                   else exec polls_for calls
                          (add_event (EvFail (type_error "this.func.apply is not a function")) st))
                  = exec polls_for calls (add_event ev st))
        by (unfold ev; destruct (String.eqb (typeof f) "function"); reflexivity).
      rewrite E.
      destruct (IH (add_event ev st)) as [M2 I2]. simpl in M2. split.
      * exact M2.
      * intro H. apply I2. rewrite inv_add_other; [exact H |].
        unfold ev; destruct (String.eqb (typeof f) "function"); discriminate.
    + destruct (wait_loop_inv (polls_for t) st) as [M1 I1].
      destruct (wait_loop (polls_for t) st) as [st' [|]]; simpl in M1, I1.
      * destruct (IH st') as [M2 I2]. split.
        -- destruct (result st), (result st'); simpl in *; congruence.
        -- auto.
      * split; auto.
Qed.

(** Claim C7: the latch starts [false]; the only write, [onReleaseWait],
    stores [true]; no execution step turns a [true] latch back to [false];
    hence in every run of blocks the poll condition, once seen [true], is
    seen [true] at every later check. *)
Theorem latch_monotonic :
  result init_xstate = false
  /\ (forall cb args st, result (fst (apply_cb cb args st)) = true)
  /\ (forall polls_for calls st,
        implb (result st) (result (exec polls_for calls st)) = true)
  /\ (forall polls_for calls,
        checks_mono (checks (log (exec polls_for calls init_xstate))) = true).
Proof.
  split; [reflexivity | split; [| split]].
  - intros [] args st; reflexivity.
  - intros polls_for calls st. apply exec_inv.
  - intros polls_for calls.
    assert (I : inv (exec polls_for calls init_xstate) = true)
      by (apply exec_inv; reflexivity).
    unfold inv in I. apply andb_true_iff in I as [I _]. exact I.
Qed.

End InterceptFacts.

Module InstallExtras.
Import Install InstallFacts.

Lemma indexOf_from_past_end (s search : string) (k fuel : nat) :
  String.length s < k + String.length search -> indexOf_from s search k fuel = (-1)%Z.
Proof.
  revert k; induction fuel as [| f IH]; intros k H; simpl; [reflexivity |].
  replace (Nat.leb (k + String.length search) (String.length s)) with false
    by (symmetry; apply Nat.leb_gt; exact H).
  simpl. apply IH. lia.
Qed.

(** Line 57's [id.indexOf(suffix, id.length - suffix.length) !== -1] holds
    exactly when [id] ends with [suffix] (also when [suffix] is longer than
    [id], where the negative start index is clamped to 0). *)
Theorem id_matches_ends_with (id suffix : string) :
  id_matches id suffix = ends_with id suffix.
Proof.
  unfold id_matches, js_indexOf, ends_with.
  set (len := String.length id). set (n := String.length suffix).
  destruct (Nat.leb n len) eqn:L.
  - apply Nat.leb_le in L.
    replace (Z.to_nat (Z.min (Z.max (Z.of_nat len - Z.of_nat n) 0) (Z.of_nat len)))
      with (len - n) by lia.
    replace (S (len - (len - n))) with (S n) by lia.
    simpl. fold len n.
    replace (Nat.leb (len - n + n) len) with true by (symmetry; apply Nat.leb_le; lia).
    simpl. destruct (String.eqb (substring (len - n) n id) suffix).
    + simpl. destruct (Z.eqb_spec (Z.of_nat (len - n)) (-1)); [lia | reflexivity].
    + rewrite indexOf_from_past_end by (fold len n; lia). reflexivity.
  - apply Nat.leb_gt in L.
    rewrite indexOf_from_past_end by (fold len n; lia). reflexivity.
Qed.

(** Induction over module trees, with a hypothesis for every child. *)
Fixpoint modnode_rect' (P : modnode -> Prop)
  (H : forall id e cs, Forall P cs -> P (Mod id e cs)) (m : modnode) : P m :=
  match m with
  | Mod id e cs =>
      H id e cs
        ((fix go (cs : list modnode) : Forall P cs :=
            match cs with
            | [] => Forall_nil P
            | c :: cs' => Forall_cons c (modnode_rect' P H c) (go cs')
            end) cs)
  end.

(** The modules of a tree in depth-first pre-order. *)
Fixpoint preorder (m : modnode) : list modnode :=
  match m with
  | Mod _ _ cs =>
      m :: (fix go (cs : list modnode) : list modnode :=
              match cs with [] => [] | c :: cs' => app (preorder c) (go cs') end) cs
  end.

(** The exports of the first module of a list whose id ends with [suffix]
    and whose exports are truthy; [undefined] when there is none. *)
Fixpoint first_match (suffix : string) (l : list modnode) : hval :=
  match l with
  | [] => HUndef
  | Mod id e _ :: l' => if ends_with id suffix && truthy e then e else first_match suffix l'
  end.

Lemma first_match_app (suffix : string) (l1 l2 : list modnode) :
  first_match suffix (app l1 l2)
  = let r := first_match suffix l1 in if truthy r then r else first_match suffix l2.
Proof.
  induction l1 as [| [id e cs] l1 IH]; simpl; [reflexivity |].
  destruct (ends_with id suffix) eqn:E; destruct (truthy e) eqn:T; simpl;
    rewrite ?T; auto.
Qed.

(** [findNodeJSTarget(m, suffix)] returns the exports of the first module, in
    depth-first pre-order of the tree rooted at [m], whose id ends with
    [suffix] and whose exports are truthy, and [undefined] when no module
    qualifies. *)
Theorem findNodeJSTarget_first_preorder (m : modnode) (suffix : string) :
  findNodeJSTarget m suffix = first_match suffix (preorder m).
Proof.
  induction m as [id e cs IH] using modnode_rect'.
  simpl. destruct (ends_with id suffix && truthy e); [reflexivity |].
  induction IH as [| c cs Hc _ IHcs]; [reflexivity |].
  rewrite first_match_app, <- Hc, <- IHcs. reflexivity.
Qed.

(** In real Node, when the main module's tree contains a module whose id
    ends with [jasmine/lib/jasmine.js] and whose exports are truthy, calling
    the entry point with no argument installs into the exports of the first
    such module in pre-order: no discovery error is thrown. *)
Theorem module_exports_discovers (main : modnode) (g : option hval) (st : state)
  (id : string) (e : hval) (cs : list modnode) :
  In (Mod id e cs) (preorder main) ->
  ends_with id jasmine_suffix = true -> truthy e = true ->
  truthy (findNodeJSTarget main jasmine_suffix) = true
  /\ module_exports (mkEnv true (Some main) g) st HUndef
     = jasmineAsPromised st (findNodeJSTarget main jasmine_suffix).
Proof.
  intros I E T.
  assert (F : truthy (findNodeJSTarget main jasmine_suffix) = true).
  { rewrite findNodeJSTarget_first_preorder.
    induction (preorder main) as [| [id' e' cs'] l IHl]; [destruct I |].
    simpl. destruct (ends_with id' jasmine_suffix && truthy e') eqn:M.
    - apply andb_true_iff in M as [_ M]; exact M.
    - destruct I as [I | I]; [| exact (IHl I)].
      injection I as -> -> ->. rewrite E, T in M. discriminate M. }
  split; [exact F |].
  unfold module_exports; simpl.
  destruct (findNodeJSTarget main jasmine_suffix); try discriminate F; reflexivity.
Qed.

Lemma module_exports_discovers_witness :
  truthy (findNodeJSTarget
            (Mod "/app/spec/run.js" (HRef 9)
               [Mod "/app/node_modules/jasmine/lib/jasmine.js" (HRef 0) []])
            jasmine_suffix) = true
  /\ module_exports (mkEnv true (Some (Mod "/app/spec/run.js" (HRef 9)
                       [Mod "/app/node_modules/jasmine/lib/jasmine.js" (HRef 0) []])) None)
       (mkState false (host_heap (HPrim "runs") (HPrim "waitsFor"))) HUndef
     = jasmineAsPromised (mkState false (host_heap (HPrim "runs") (HPrim "waitsFor")))
         (findNodeJSTarget
            (Mod "/app/spec/run.js" (HRef 9)
               [Mod "/app/node_modules/jasmine/lib/jasmine.js" (HRef 0) []])
            jasmine_suffix).
Proof.
  apply (module_exports_discovers
           (Mod "/app/spec/run.js" (HRef 9)
              [Mod "/app/node_modules/jasmine/lib/jasmine.js" (HRef 0) []])
           None (mkState false (host_heap (HPrim "runs") (HPrim "waitsFor")))
           "/app/node_modules/jasmine/lib/jasmine.js" (HRef 0) []).
  - simpl. right; left; reflexivity.
  - reflexivity.
  - reflexivity.
Defined.

Lemma heap_find_set (h : heap) (l l' : nat) (o : obj) :
  heap_find (heap_set h l o) l'
  = if Nat.eqb l' l then match heap_find h l with Some _ => Some o | None => None end
    else heap_find h l'.
Proof.
  induction h as [| [l0 o0] h IH]; simpl.
  - destruct (Nat.eqb l' l); reflexivity.
  - destruct (Nat.eqb_spec l l0) as [-> | N]; simpl.
    + destruct (Nat.eqb_spec l' l0); reflexivity.
    + rewrite IH. destruct (Nat.eqb_spec l' l) as [-> | N'].
      * apply Nat.eqb_neq in N. rewrite N. reflexivity.
      * reflexivity.
Qed.

Lemma obj_find_set (o : obj) (k k' : string) (v : hval) :
  obj_find (obj_set o k v) k' = if String.eqb k' k then Some v else obj_find o k'.
Proof.
  induction o as [| [k0 v0] o IH]; simpl; [reflexivity |].
  destruct (String.eqb_spec k k0) as [-> | N]; simpl.
  - destruct (String.eqb k' k0); reflexivity.
  - rewrite IH. destruct (String.eqb_spec k' k) as [-> | N'].
    + apply String.eqb_neq in N. rewrite N. reflexivity.
    + reflexivity.
Qed.

(** A successful installation on a handle whose [Spec.prototype] is the heap
    object [l] writes exactly one slot: [l.runs] now holds the interceptor
    built over the values [runs] and [waitsFor] read from [l] before (each
    [undefined] if missing, since nothing checks them), and every other
    property of every object reads as before. *)
Theorem install_writes_only_runs (h : heap) (jasmine : hval) (l : nat) (o : obj) :
  match get h jasmine "Spec" with Ok spec => get h spec "prototype" | Exc e => Exc e end
    = Ok (HRef l) ->
  heap_find h l = Some o ->
  exists h',
    jasmineAsPromised (mkState false h) jasmine = (mkState true h', Ok tt)
    /\ (forall r w, get h (HRef l) "runs" = Ok r -> get h (HRef l) "waitsFor" = Ok w ->
                    get h' (HRef l) "runs" = Ok (HIntercept r w))
    /\ (forall l' k, l' <> l \/ k <> "runs" -> get h' (HRef l') k = get h (HRef l') k).
Proof.
  intros P F.
  assert (D : isDefined jasmine = true) by (destruct jasmine; try reflexivity; discriminate P).
  unfold jasmineAsPromised; simpl; rewrite D; simpl.
  destruct (get h jasmine "Spec") as [spec | e]; [| discriminate P].
  cbv beta iota in P. rewrite P.
  unfold get at 1 2; unfold put; rewrite !F.
  exists (heap_set h l (obj_set o "runs"
            (HIntercept (match obj_find o "runs" with Some v => v | None => HUndef end)
                        (match obj_find o "waitsFor" with Some v => v | None => HUndef end)))).
  split; [| split].
  - destruct (obj_find o "runs"), (obj_find o "waitsFor"); reflexivity.
  - intros r' w' R W.
    rewrite heap_find_set, Nat.eqb_refl, F, obj_find_set. simpl.
    destruct (obj_find o "runs"); injection R as <-;
      destruct (obj_find o "waitsFor"); injection W as <-; reflexivity.
  - intros l' k N. rewrite heap_find_set.
    destruct (Nat.eqb_spec l' l) as [-> | _]; [| reflexivity].
    rewrite F, obj_find_set.
    destruct (String.eqb_spec k "runs") as [-> | _]; [| reflexivity].
    destruct N as [N | N]; contradiction.
Qed.

Lemma install_writes_only_runs_witness :
  exists h',
    jasmineAsPromised (mkState false (host_heap (HPrim "runs") (HPrim "waitsFor"))) (HRef 0)
    = (mkState true h', Ok tt)
    /\ get h' (HRef 2) "runs" = Ok (HIntercept (HPrim "runs") (HPrim "waitsFor"))
    /\ get h' (HRef 2) "waitsFor" = Ok (HPrim "waitsFor").
Proof.
  destruct (install_writes_only_runs (host_heap (HPrim "runs") (HPrim "waitsFor")) (HRef 0) 2
              [("runs", HPrim "runs"); ("waitsFor", HPrim "waitsFor")] eq_refl eq_refl)
    as (h' & E & R & O).
  exists h'. split; [exact E | split].
  - apply R; reflexivity.
  - rewrite O by (right; discriminate). reflexivity.
Defined.

End InstallExtras.

Module InterceptExtras.
Import Js Detector Intercept InterceptFacts.

Lemma repeat_snoc {A} (x : A) (k : nat) (l : list A) :
  app (repeat x k) (x :: l) = app (repeat x (S k)) l.
Proof. induction k as [| k IH]; simpl; [reflexivity | rewrite IH; reflexivity]. Qed.

(** Nothing pending and the latch down: every check fails until timeout. *)
Lemma wait_loop_stuck (fuel : nat) (l : list event) :
  wait_loop fuel (mkX false None l)
  = (mkX false None (EvTimeout :: app (repeat (EvCheck false) (S fuel)) l), false).
Proof.
  revert l; induction fuel as [| f IH]; intros l; cbn; [reflexivity |].
  unfold add_event, tick; cbn.
  rewrite IH, repeat_snoc. reflexivity.
Qed.

(** A settlement due after [n] turns with both callbacks [onReleaseWait]. *)
Lemma wait_loop_settles (fuel n : nat) (s : settlement) (l : list event) :
  n < fuel ->
  wait_loop fuel (mkX false (Some (n, s, (OnReleaseWait, OnReleaseWait))) l)
  = (mkX true None (EvCheck true :: app (repeat (EvCheck false) (S n)) l), true).
Proof.
  revert n l; induction fuel as [| f IH]; intros n l H; [lia |].
  cbn. unfold add_event, tick; cbn. destruct n as [| n].
  - destruct s; destruct f; reflexivity.
  - rewrite IH by lia. rewrite repeat_snoc. reflexivity.
Qed.

Lemma wait_loop_late (fuel n : nat) (s : settlement) (l : list event) :
  fuel <= n ->
  wait_loop fuel (mkX false (Some (n, s, (OnReleaseWait, OnReleaseWait))) l)
  = (mkX false (Some (n - fuel, s, (OnReleaseWait, OnReleaseWait)))
         (EvTimeout :: app (repeat (EvCheck false) (S fuel)) l), false).
Proof.
  revert n l; induction fuel as [| f IH]; intros n l H.
  - simpl. rewrite Nat.sub_0_r. reflexivity.
  - cbn. unfold add_event, tick; cbn. destruct n as [| n]; [lia |]. cbn.
    rewrite IH by lia. rewrite repeat_snoc. reflexivity.
Qed.

(** What the host's block for [expectFn] adds to the log. *)
Definition followup (expectFn : val) : list event :=
  if isDefined expectFn then
    [if String.eqb (typeof expectFn) "function" then EvCall expectFn []
     else EvFail (type_error "this.func.apply is not a function")]
  else [].

Lemma exec_interceptor (polls_for : val -> nat) (runFn : body) (expectFn timeOut : val) (st : xstate) :
  exec polls_for (interceptor runFn expectFn timeOut) st
  = let st1 := match run_adapter runFn st with
               | (st', Some e) => add_event (EvFail e) st'
               | (st', None) => st'
               end in
    let (st2, ok) := wait_loop (polls_for timeOut) st1 in
    if ok then mkX (result st2) (pending st2) (app (followup expectFn) (log st2)) else st2.
Proof.
  unfold interceptor, followup. destruct (isDefined expectFn); simpl;
    try destruct (String.eqb (typeof expectFn) "function");
    destruct (run_adapter runFn st) as [st' [e |]]; simpl;
    destruct (wait_loop (polls_for timeOut) _) as [[r p l] [|]]; reflexivity.
Qed.

(** A step body that throws: the host reports the exception, the latch is
    never set, the poll condition fails at each of its [1 + polls] checks
    and the wait times out; the follow-up is never run. *)
Theorem body_throws_times_out (polls_for : val -> nat) (runFn : body) (e expectFn timeOut : val) :
  b_call runFn = CThrow e ->
  exec polls_for (interceptor runFn expectFn timeOut) init_xstate
  = mkX false None (EvTimeout :: app (repeat (EvCheck false) (S (polls_for timeOut))) [EvFail e]).
Proof.
  intros C. rewrite exec_interceptor. unfold run_adapter. rewrite C.
  unfold add_event, init_xstate; cbn.
  rewrite wait_loop_stuck. reflexivity.
Qed.

Lemma body_throws_times_out_witness :
  exec (fun _ => 2) (interceptor (mkBody (CThrow (VStr "boom")) None) (VFun []) VUndef) init_xstate
  = mkX false None [EvTimeout; EvCheck false; EvCheck false; EvCheck false; EvFail (VStr "boom")].
Proof.
  exact (body_throws_times_out (fun _ => 2) (mkBody (CThrow (VStr "boom")) None)
           (VStr "boom") (VFun []) VUndef eq_refl).
Defined.




(** Whether the promise fulfils or rejects (with any values), the step runs
    the same way: same events, same final latch; the follow-up still runs
    after a rejection. *)
Theorem reject_same_as_fulfil (polls_for : val -> nat) (c : completion) (n : nat)
  (v r expectFn timeOut : val) :
  log (exec polls_for (interceptor (mkBody c (Some (n, Fulfil v))) expectFn timeOut) init_xstate)
  = log (exec polls_for (interceptor (mkBody c (Some (n, Reject r))) expectFn timeOut) init_xstate)
  /\ result (exec polls_for (interceptor (mkBody c (Some (n, Fulfil v))) expectFn timeOut) init_xstate)
     = result (exec polls_for (interceptor (mkBody c (Some (n, Reject r))) expectFn timeOut) init_xstate).
Proof.
  destruct c as [retVal | e].
  - destruct (isPromise retVal) as [eff [[|] | e]] eqn:P.
    + rewrite !exec_interceptor.
      rewrite (run_adapter_deferred (mkBody (CRet retVal) (Some (n, Fulfil v))) retVal eff init_xstate eq_refl P).
      rewrite (run_adapter_deferred (mkBody (CRet retVal) (Some (n, Reject r))) retVal eff init_xstate eq_refl P).
      cbn. destruct (Nat.ltb_spec n (polls_for timeOut)) as [L | L].
      * rewrite !wait_loop_settles by exact L. split; reflexivity.
      * rewrite !wait_loop_late by exact L. split; reflexivity.
    + rewrite !exec_interceptor. unfold run_adapter; cbn. rewrite P. split; reflexivity.
    + rewrite !exec_interceptor. unfold run_adapter; cbn. rewrite P. split; reflexivity.
  - rewrite !exec_interceptor. split; reflexivity.
Qed.

End InterceptExtras.
